(** * Player persistence: [src/io/iologindata.cpp]

    A shallow embedding of the login-data layer of the server: the load
    pipeline ([loadPlayer]), the save transaction ([savePlayer] /
    [savePlayerGuard]), the online-status tracker ([updateOnlineStatus]),
    the game-world authentication check and the guid lookup.

    Process-wide singletons of the C++ code (the database connection, the
    metrics sink, the logger, the configuration, the function-local static
    presence map) are fields of one [World] record that every operation
    threads explicitly.  Collaborators that live in other translation units
    (the loader and saver steps, the account object, the database engine)
    are interfaces: the development is generic in their implementation. *)

From Stdlib Require Import ZArith String List Lia.
From stdpp Require Import base option list gmap strings.

Local Open Scope string_scope.
Local Open Scope Z_scope.
Local Open Scope list_scope.

(** ** Names of the collaborators *)

(** The saver functions called by [savePlayerGuard]. *)
Inductive SaverStep : Type :=
  | savePlayerFirst
  | savePlayerStash
  | savePlayerSpells
  | savePlayerKills
  | savePlayerBestiarySystem
  | savePlayerItem
  | savePlayerDepotItems
  | saveRewardItems
  | savePlayerInbox
  | savePlayerPreyClass
  | savePlayerTaskHuntingClass
  | savePlayerForgeHistory
  | savePlayerBosstiary
  | saveDBPlayerSlotPointsOnLogout
  | savePlayerStorage.

(** The loader functions called by [loadPlayer]. *)
Inductive LoaderStep : Type :=
  | loadPlayerFirst
  | loadPlayerExperience
  | loadPlayerBlessings
  | loadPlayerConditions
  | loadPlayerDefaultOutfit
  | loadPlayerSkullSystem
  | loadPlayerSkill
  | loadPlayerKills
  | loadPlayerGuild
  | loadPlayerStashItems
  | loadPlayerBestiaryCharms
  | loadPlayerInventoryItems
  | loadPlayerStoreInbox
  | loadPlayerDepotItems
  | loadRewardItems
  | loadPlayerInboxItems
  | loadPlayerStorageMap
  | loadPlayerVip
  | loadPlayerPreyClass
  | loadPlayerTaskHuntingClass
  | loadPlayerInstantSpellList
  | loadPlayerForgeHistory
  | loadPlayerBosstiary
  | loadPlayerInitializeSystem
  | loadPlayerUpdateSystem.

(** One entry per collaborator invocation, in the order of the calls. *)
Inductive Invocation : Type :=
  | Loader (s : LoaderStep)
  | Saver (s : SaverStep).

#[global] Instance SaverStep_eq_dec : EqDecision SaverStep.
Proof. solve_decision. Defined.

#[global] Instance LoaderStep_eq_dec : EqDecision LoaderStep.
Proof. solve_decision. Defined.

(** ** Exceptions, log lines *)

Inductive Exception : Type :=
  | DatabaseException (what : string)
  | system_error (what : string)
  | std_exception (what : string).

Definition what (e : Exception) : string :=
  match e with
  | DatabaseException m => m
  | system_error m => m
  | std_exception m => m
  end.

Inductive LogLine : Type :=
  | log_error (msg : string)
  | log_warn (msg : string).

(** ** The store interface *)

(** The statements this file sends to the store.  The C++ code formats
    them as SQL text; each constructor stands for one format string and
    carries the values bound into it. *)
Inductive Query : Type :=
  (* SELECT * FROM `players` WHERE `id` = {} AND `world_id` = {} *)
  | SelectPlayerById (id world : Z)
  (* SELECT * FROM `players` WHERE `name` = {} AND `world_id` = {} *)
  | SelectPlayerByName (name : string) (world : Z)
  (* SELECT `id` FROM `players` WHERE `name` = {} AND `world_id` = {} *)
  | SelectIdByName (name : string) (world : Z)
  (* INSERT INTO `players_online` VALUES ({}, {}) *)
  | InsertPlayersOnline (guid world : Z)
  (* DELETE FROM `players_online` WHERE `player_id` = {} AND `world_id` = {} *)
  | DeletePlayersOnline (guid world : Z).

(** [DBResult_ptr]: a fetched row, read by column name.  A null pointer is
    [None : option DBResult]. *)
Record DBResult : Type := mkDBResult {
  getNumber : string -> Z;
  getString : string -> string
}.

(** [result->getNumber<uint32_t>(col)]. *)
Definition uint32 (z : Z) : Z := z mod 2 ^ 32.

Definition getNumber_uint32 (r : DBResult) (col : string) : Z :=
  uint32 (getNumber r col).

(** [Database]: [storeQuery] answers a fetch with a row or with a null
    result, [executeQuery] performs a write and reports whether it was
    accepted, [commit] tells whether the store accepts the commit of the
    pending writes. *)
Class Database (DB : Type) : Type := {
  storeQuery : Query -> DB -> option DBResult;
  executeQuery : Query -> DB -> bool * DB;
  commit : DB -> bool
}.

(** ** The process state *)

Record World (DB : Type) : Type := mkWorld {
  database : DB;                  (* Database::getInstance() *)
  worldId : Z;                    (* g_game().worlds()->getId() *)
  AUTH_TYPE : string;             (* g_configManager().getString(AUTH_TYPE) *)
  metrics : gmap string Z;        (* g_metrics() up/down counters *)
  updateOnline : gmap Z bool;     (* static map of updateOnlineStatus *)
  logger : list LogLine;          (* g_logger() *)
  invoked : list Invocation       (* collaborator calls, oldest first *)
}.

Arguments mkWorld {DB}.
Arguments database {DB}.
Arguments worldId {DB}.
Arguments AUTH_TYPE {DB}.
Arguments metrics {DB}.
Arguments updateOnline {DB}.
Arguments logger {DB}.
Arguments invoked {DB}.

Definition set_database {DB} (d : DB) (w : World DB) : World DB :=
  mkWorld d (worldId w) (AUTH_TYPE w) (metrics w) (updateOnline w)
          (logger w) (invoked w).

Definition set_metrics {DB} (m : gmap string Z) (w : World DB) : World DB :=
  mkWorld (database w) (worldId w) (AUTH_TYPE w) m (updateOnline w)
          (logger w) (invoked w).

Definition set_updateOnline {DB} (u : gmap Z bool) (w : World DB) : World DB :=
  mkWorld (database w) (worldId w) (AUTH_TYPE w) (metrics w) u
          (logger w) (invoked w).

Definition log {DB} (l : LogLine) (w : World DB) : World DB :=
  mkWorld (database w) (worldId w) (AUTH_TYPE w) (metrics w) (updateOnline w)
          (logger w ++ [l]) (invoked w).

Definition record {DB} (i : Invocation) (w : World DB) : World DB :=
  mkWorld (database w) (worldId w) (AUTH_TYPE w) (metrics w) (updateOnline w)
          (logger w) (invoked w ++ [i]).

(** [g_metrics().addUpDownCounter(name, delta)]. *)
Definition addUpDownCounter (name : string) (delta : Z)
    (m : gmap string Z) : gmap string Z :=
  <[name := default 0 (m !! name) + delta]> m.

Definition counter (name : string) (m : gmap string Z) : Z :=
  default 0 (m !! name).

(** ** Exceptions over a state *)

Definition M (St A : Type) : Type := St -> (Exception + A) * St.

Definition ret {St A} (a : A) : M St A := fun s => (inr a, s).

Definition throw {St A} (e : Exception) : M St A := fun s => (inl e, s).

Definition bind {St A B} (m : M St A) (k : A -> M St B) : M St B :=
  fun s =>
    match m s with
    | (inl e, s') => (inl e, s')
    | (inr a, s') => k a s'
    end.

Declare Scope io_scope.
Delimit Scope io_scope with io.

Notation "'let*' x := c 'in' k" := (bind c (fun x => k))
  (at level 10, x name, c at level 100, k at level 200) : io_scope.

Notation "c ;; k" := (bind c (fun _ => k))
  (at level 100, k at level 200, right associativity) : io_scope.

(** [if (!call) { throw e; }] *)
Definition must {St} (call : M St bool) (e : Exception) : M St unit :=
  bind call (fun ok => if negb ok then throw e else ret tt).

(** ** Collaborator interfaces *)

(** The player aggregate [P] with its loader and saver steps.  A saver
    step performs its writes on the store and returns success or failure,
    or throws.  A loader step mutates the aggregate and may throw; the
    steps declared with a single [player] parameter receive no cursor. *)
Class Collaborators (P DB : Type) : Type := {
  getName : P -> string;
  run_saver : SaverStep -> P -> DB -> (Exception + bool) * DB;
  run_loader : LoaderStep -> option DBResult -> DB -> P -> option Exception * P
}.

(** One entry of the map returned by [Account::getAccountPlayers]. *)
Record Character : Type := mkCharacter {
  deletion : Z
}.

(** The [Account] object used by [gameWorldAuthentication].  [load] and
    [getAccountPlayers] return a numeric error code that the caller
    compares with [AccountErrors_t::Ok]; [value_initialized] is the entry
    that [players[name]] yields for a name missing from the map. *)
Module Account.
Class Api (A : Type) : Type := {
  make : string -> A;
  setProtocolCompat : bool -> A -> A;
  load : A -> Z * A;
  authenticate : A -> bool * A;
  authenticate_password : string -> A -> bool * A;
  getAccountPlayers : A -> gmap string Character * Z;
  getID : A -> Z;
  getDescriptor : A -> string;
  AccountErrors_Ok : Z;
  value_initialized : Character
}.
End Account.

Section Model.

Context {DB : Type} `{!Database DB}.
Context {P : Type} `{!Collaborators P DB}.
Context {A : Type} `{!Account.Api A}.

(** ** Online-status tracker (lines 72-91) *)

Definition updateOnlineStatus (guid : Z) (login : bool)
    (w : World DB) : World DB :=
  if (login && bool_decide (is_Some (updateOnline w !! guid))) || (guid <=? 0)%Z
  then w
  else
    let worldId := worldId w in
    if login then
      let w := set_metrics (addUpDownCounter "players_online" 1 (metrics w)) w in
      let query := InsertPlayersOnline guid worldId in
      let w := set_updateOnline (<[guid := true]> (updateOnline w)) w in
      set_database (executeQuery query (database w)).2 w
    else
      let w := set_metrics (addUpDownCounter "players_online" (-1) (metrics w)) w in
      let query := DeletePlayersOnline guid worldId in
      let w := set_updateOnline (delete guid (updateOnline w)) w in
      set_database (executeQuery query (database w)).2 w.

(** ** Guid lookup (lines 289-298) *)

Definition getGuidByName (name : string) (w : World DB) : Z :=
  let db := database w in
  let query := SelectIdByName name (worldId w) in
  let result := storeQuery query db in
  match result with
  | None => 0
  | Some result => getNumber_uint32 result "id"
  end.

(** ** Authentication (lines 21-59) *)

(** [accountId] is an out-parameter: the second component of the result is
    its value when the function returns. *)
Definition gameWorldAuthentication (accountDescriptor password : string)
    (characterName : string) (accountId : Z) (oldProtocol : bool)
    (w : World DB) : bool * Z * World DB :=
  let account : A := Account.make accountDescriptor in
  let account := Account.setProtocolCompat oldProtocol account in
  let '(code, account) := Account.load account in
  if negb (Account.AccountErrors_Ok =? code)%Z then
    (false, accountId,
     log (log_error ("Couldn't load account [" +:+ Account.getDescriptor account +:+ "].")) w)
  else
  let '(authenticated, account) :=
    if String.eqb (AUTH_TYPE w) "session"
    then Account.authenticate account
    else Account.authenticate_password password account in
  if negb authenticated then (false, accountId, w)
  else
  let '(code, account) := Account.load account in
  if negb (Account.AccountErrors_Ok =? code)%Z then
    (false, accountId,
     log (log_error ("Failed to load account [" +:+ accountDescriptor +:+ "]")) w)
  else
  let '(players, result) := Account.getAccountPlayers account in
  if negb (Account.AccountErrors_Ok =? result)%Z then
    (false, accountId,
     log (log_error ("Failed to load account [" +:+ accountDescriptor +:+ "] players")) w)
  else
  if negb (deletion (default Account.value_initialized (players !! characterName)) =? 0)%Z then
    (false, accountId,
     log (log_error ("Account [" +:+ accountDescriptor +:+ "] player ["
                     +:+ characterName +:+ "] not found or deleted.")) w)
  else
  (true, Account.getID account, w).

(** The account object on which [gameWorldAuthentication] calls
    [getAccountPlayers] (lines 22-43), when the request gets that far. *)
Definition authenticatedAccount (accountDescriptor password : string)
    (oldProtocol : bool) (w : World DB) : option A :=
  let account : A := Account.make accountDescriptor in
  let account := Account.setProtocolCompat oldProtocol account in
  let '(code, account) := Account.load account in
  if negb (Account.AccountErrors_Ok =? code)%Z then None
  else
  let '(authenticated, account) :=
    if String.eqb (AUTH_TYPE w) "session"
    then Account.authenticate account
    else Account.authenticate_password password account in
  if negb authenticated then None
  else
  let '(code, account) := Account.load account in
  if negb (Account.AccountErrors_Ok =? code)%Z then None
  else Some account.

(** ** Load pipeline (lines 94-198) *)

(** [IOLoginDataLoad::step(player, result)]: the call is recorded, the
    aggregate behind [player] is replaced by the mutated one, and an
    exception thrown by the step propagates. *)
Definition IOLoginDataLoad (s : LoaderStep) (result : option DBResult)
    : M (P * World DB) unit :=
  fun '(player, w) =>
    let w := record (Loader s) w in
    match run_loader s result (database w) player with
    | (Some e, player) => (inl e, (player, w))
    | (None, player) => (inr tt, (player, w))
    end.

(** The body of the [try] block of [loadPlayer]. *)
Definition loadPlayer_try (result : DBResult) (disableIrrelevantInfo : bool)
    : M (P * World DB) bool :=
  (IOLoginDataLoad loadPlayerFirst (Some result) ;;
   IOLoginDataLoad loadPlayerExperience (Some result) ;;
   IOLoginDataLoad loadPlayerBlessings (Some result) ;;
   IOLoginDataLoad loadPlayerConditions (Some result) ;;
   IOLoginDataLoad loadPlayerDefaultOutfit (Some result) ;;
   IOLoginDataLoad loadPlayerSkullSystem (Some result) ;;
   IOLoginDataLoad loadPlayerSkill (Some result) ;;
   IOLoginDataLoad loadPlayerKills (Some result) ;;
   IOLoginDataLoad loadPlayerGuild (Some result) ;;
   IOLoginDataLoad loadPlayerStashItems (Some result) ;;
   IOLoginDataLoad loadPlayerBestiaryCharms (Some result) ;;
   IOLoginDataLoad loadPlayerInventoryItems (Some result) ;;
   IOLoginDataLoad loadPlayerStoreInbox None ;;
   IOLoginDataLoad loadPlayerDepotItems (Some result) ;;
   IOLoginDataLoad loadRewardItems None ;;
   IOLoginDataLoad loadPlayerInboxItems (Some result) ;;
   IOLoginDataLoad loadPlayerStorageMap (Some result) ;;
   IOLoginDataLoad loadPlayerVip (Some result) ;;
   IOLoginDataLoad loadPlayerPreyClass (Some result) ;;
   IOLoginDataLoad loadPlayerTaskHuntingClass (Some result) ;;
   IOLoginDataLoad loadPlayerInstantSpellList (Some result) ;;
   if disableIrrelevantInfo then ret true
   else
   IOLoginDataLoad loadPlayerForgeHistory (Some result) ;;
   IOLoginDataLoad loadPlayerBosstiary (Some result) ;;
   IOLoginDataLoad loadPlayerInitializeSystem None ;;
   IOLoginDataLoad loadPlayerUpdateSystem None ;;
   ret true)%io.

(** [player] is the aggregate behind the shared pointer ([None] for a null
    pointer); the second component of the result is that aggregate when
    the function returns. *)
Definition loadPlayer (player : option P) (result : option DBResult)
    (disableIrrelevantInfo : bool) (w : World DB)
    : bool * option P * World DB :=
  match result, player with
  | Some result, Some player =>
      match loadPlayer_try result disableIrrelevantInfo (player, w) with
      | (inr b, (player, w)) => (b, Some player, w)
      | (inl (system_error m), (player, w)) =>
          (false, Some player,
           log (log_warn ("[loadPlayer] Error while load player: " +:+ m)) w)
      | (inl e, (player, w)) =>
          (false, Some player,
           log (log_warn ("[loadPlayer] Error while load player: " +:+ what e)) w)
      end
  | _, _ =>
      let nullptrType := if result is None then "Result" else "Player" in
      (false, player,
       log (log_warn ("[loadPlayer] - " +:+ nullptrType +:+ " is nullptr")) w)
  end.

Definition loadPlayerById (player : option P) (id : Z)
    (disableIrrelevantInfo : bool) (w : World DB)
    : bool * option P * World DB :=
  let db := database w in
  let query := SelectPlayerById id (worldId w) in
  loadPlayer player (storeQuery query db) disableIrrelevantInfo w.

Definition loadPlayerByName (player : option P) (name : string)
    (disableIrrelevantInfo : bool) (w : World DB)
    : bool * option P * World DB :=
  let db := database w in
  let query := SelectPlayerByName name (worldId w) in
  loadPlayer player (storeQuery query db) disableIrrelevantInfo w.

(** ** Save transaction (lines 200-278) *)

(** [IOLoginDataSave::step(player)]: the call is recorded, the step's
    writes reach the store, and an exception thrown by the step
    propagates. *)
Definition IOLoginDataSave (s : SaverStep) (player : P) : M (World DB) bool :=
  fun w =>
    let '(outcome, db) := run_saver s player (database w) in
    (outcome, record (Saver s) (set_database db w)).

Definition savePlayerGuard (player : option P) : M (World DB) bool :=
  match player with
  | None =>
      throw (DatabaseException ("Player nullptr in function: " +:+ "savePlayerGuard"))
  | Some player =>
     (must (IOLoginDataSave savePlayerFirst player)
        (DatabaseException ("[" +:+ "savePlayerGuard" +:+ "] - Failed to save player first: " +:+ getName player)) ;;
      must (IOLoginDataSave savePlayerStash player)
        (DatabaseException ("[IOLoginDataSave::savePlayerFirst] - Failed to save player stash: " +:+ getName player)) ;;
      must (IOLoginDataSave savePlayerSpells player)
        (DatabaseException ("[IOLoginDataSave::savePlayerSpells] - Failed to save player spells: " +:+ getName player)) ;;
      must (IOLoginDataSave savePlayerKills player)
        (DatabaseException ("IOLoginDataSave::savePlayerKills] - Failed to save player kills: " +:+ getName player)) ;;
      must (IOLoginDataSave savePlayerBestiarySystem player)
        (DatabaseException ("[IOLoginDataSave::savePlayerBestiarySystem] - Failed to save player bestiary system: " +:+ getName player)) ;;
      must (IOLoginDataSave savePlayerItem player)
        (DatabaseException ("[IOLoginDataSave::savePlayerItem] - Failed to save player item: " +:+ getName player)) ;;
      must (IOLoginDataSave savePlayerDepotItems player)
        (DatabaseException ("[IOLoginDataSave::savePlayerDepotItems] - Failed to save player depot items: " +:+ getName player)) ;;
      must (IOLoginDataSave saveRewardItems player)
        (DatabaseException ("[IOLoginDataSave::saveRewardItems] - Failed to save player reward items: " +:+ getName player)) ;;
      must (IOLoginDataSave savePlayerInbox player)
        (DatabaseException ("[IOLoginDataSave::savePlayerInbox] - Failed to save player inbox: " +:+ getName player)) ;;
      must (IOLoginDataSave savePlayerPreyClass player)
        (DatabaseException ("[IOLoginDataSave::savePlayerPreyClass] - Failed to save player prey class: " +:+ getName player)) ;;
      must (IOLoginDataSave savePlayerTaskHuntingClass player)
        (DatabaseException ("[IOLoginDataSave::savePlayerTaskHuntingClass] - Failed to save player task hunting class: " +:+ getName player)) ;;
      must (IOLoginDataSave savePlayerForgeHistory player)
        (DatabaseException ("[IOLoginDataSave::savePlayerForgeHistory] - Failed to save player forge history: " +:+ getName player)) ;;
      must (IOLoginDataSave savePlayerBosstiary player)
        (DatabaseException ("[IOLoginDataSave::savePlayerBosstiary] - Failed to save player bosstiary: " +:+ getName player)) ;;
      must (IOLoginDataSave saveDBPlayerSlotPointsOnLogout player)
        (DatabaseException ("[PlayerWheel::saveDBPlayerSlotPointsOnLogout] - Failed to save player wheel info: " +:+ getName player)) ;;
      must (IOLoginDataSave savePlayerStorage player)
        (DatabaseException ("[IOLoginDataSave::savePlayerStorage] - Failed to save player storage: " +:+ getName player)) ;;
      ret true)%io
  end.

(** Modelled from the spec: [DBTransaction::executeWithinTransaction] is
    defined in the database layer, which is not part of this file.  The
    spec's TransactionScope brackets the writes of its body: either all of
    them become durable (commit) or none does (rollback on scope exit via
    failure), and a commit that fails after the body succeeded is a
    failure of the call. *)
Definition executeWithinTransaction (toBeExecuted : M (World DB) bool)
    (w : World DB) : bool * World DB :=
  let begin := database w in
  match toBeExecuted w with
  | (inl _, w') => (false, set_database begin w')
  | (inr result, w') =>
      if commit (database w') then (result, w')
      else (false, set_database begin w')
  end.

Definition savePlayer (player : option P) (w : World DB) : bool * World DB :=
  let '(success, w) := executeWithinTransaction (savePlayerGuard player) w in
  if negb success
  then (success, log (log_error "[savePlayer] Error occurred saving player") w)
  else (success, w).

End Model.

(** ** The declared step orders *)

(** The saver steps in the order the specification declares. *)
Definition saver_order : list SaverStep :=
  [ savePlayerFirst; savePlayerStash; savePlayerSpells; savePlayerKills;
    savePlayerBestiarySystem; savePlayerItem; savePlayerDepotItems;
    saveRewardItems; savePlayerInbox; savePlayerPreyClass;
    savePlayerTaskHuntingClass; savePlayerForgeHistory; savePlayerBosstiary;
    saveDBPlayerSlotPointsOnLogout; savePlayerStorage ].

(** The loader steps that run in both load modes. *)
Definition preload_order : list LoaderStep :=
  [ loadPlayerFirst; loadPlayerExperience; loadPlayerBlessings;
    loadPlayerConditions; loadPlayerDefaultOutfit; loadPlayerSkullSystem;
    loadPlayerSkill; loadPlayerKills; loadPlayerGuild; loadPlayerStashItems;
    loadPlayerBestiaryCharms; loadPlayerInventoryItems; loadPlayerStoreInbox;
    loadPlayerDepotItems; loadRewardItems; loadPlayerInboxItems;
    loadPlayerStorageMap; loadPlayerVip; loadPlayerPreyClass;
    loadPlayerTaskHuntingClass; loadPlayerInstantSpellList ].

(** The final block, which the minimal mode skips. *)
Definition final_block : list LoaderStep :=
  [ loadPlayerForgeHistory; loadPlayerBosstiary;
    loadPlayerInitializeSystem; loadPlayerUpdateSystem ].

Definition loader_order : list LoaderStep := preload_order ++ final_block.

(** The steps that read or attach item containers. *)
Definition item_container_steps : list LoaderStep :=
  [ loadPlayerStashItems; loadPlayerInventoryItems; loadPlayerStoreInbox;
    loadPlayerDepotItems; loadRewardItems; loadPlayerInboxItems ].

(** The steps that attach to the root containers of the inventory tree. *)
Definition container_dependent_steps : list LoaderStep :=
  [ loadPlayerStoreInbox; loadPlayerDepotItems; loadRewardItems;
    loadPlayerInboxItems ].

(** [a] is invoked strictly before [b] in the call sequence [l]: every
    occurrence of [b] has an occurrence of [a] at a smaller index. *)
Definition invoked_before {X : Type} (a b : X) (l : list X) : Prop :=
  forall j, l !! j = Some b -> exists i, (i < j)%nat /\ l !! i = Some a.

(** The steps declared with the single parameter [player]. *)
Definition takes_cursor (s : LoaderStep) : bool :=
  match s with
  | loadPlayerStoreInbox | loadRewardItems
  | loadPlayerInitializeSystem | loadPlayerUpdateSystem => false
  | _ => true
  end.

(** The world after the collaborators [calls] ran and left the store [db]. *)
Definition after {DB : Type} (calls : list Invocation) (db : DB)
    (w : World DB) : World DB :=
  mkWorld db (worldId w) (AUTH_TYPE w) (metrics w) (updateOnline w)
          (logger w) (invoked w ++ calls).

(** The value of the presence counter. *)
Definition presence {DB : Type} (w : World DB) : Z :=
  counter "players_online" (metrics w).

(** The declared order of a load mode. *)
Definition mode_order (disableIrrelevantInfo : bool) : list LoaderStep :=
  if disableIrrelevantInfo then preload_order else loader_order.

(** The warning logged by the handlers of [loadPlayer]. *)
Definition load_failure (e : Exception) : LogLine :=
  log_warn ("[loadPlayer] Error while load player: " +:+ what e).

(** The warning logged by the argument check of [loadPlayer]. *)
Definition null_argument (result : option DBResult) : LogLine :=
  log_warn ("[loadPlayer] - " +:+ (if result is None then "Result" else "Player")
            +:+ " is nullptr").

Section Sequences.

Context {DB : Type} `{!Database DB}.
Context {P : Type} `{!Collaborators P DB}.

(** Running saver steps in order up to and including the first one that
    fails (returns [false] or throws): the failing step (if any), the
    steps run, the store reached. *)
Fixpoint run_savers (steps : list SaverStep) (player : P) (db : DB)
    : option SaverStep * list SaverStep * DB :=
  match steps with
  | [] => (None, [], db)
  | s :: steps =>
      match run_saver s player db with
      | (inr true, db) =>
          let '(failed, ran, db) := run_savers steps player db in
          (failed, s :: ran, db)
      | (_, db) => (Some s, [s], db)
      end
  end.

(** Running loader steps in order up to and including the first one that
    throws: the exception (if any), the steps run, the aggregate reached. *)
Fixpoint run_loaders (steps : list LoaderStep) (result : DBResult) (db : DB)
    (player : P) : option Exception * list LoaderStep * P :=
  match steps with
  | [] => (None, [], player)
  | s :: steps =>
      let cursor := if takes_cursor s then Some result else None in
      match run_loader s cursor db player with
      | (Some e, player) => (Some e, [s], player)
      | (None, player) =>
          let '(e, ran, player) := run_loaders steps result db player in
          (e, s :: ran, player)
      end
  end.

End Sequences.

(** ** A concrete store and concrete collaborators

    A small table-backed store, a player whose steps can be made to fail,
    and an account with two characters: the model runs on them. *)
Module Fixture.

Record Store : Type := mkStore {
  players : list (Z * string * Z);       (* id, name, world_id *)
  players_online : list (Z * Z);         (* player_id, world_id *)
  written : list (SaverStep * string);   (* rows written by saver steps *)
  accepts_commit : bool
}.

Definition row_of (r : Z * string * Z) : DBResult :=
  mkDBResult
    (fun col => if String.eqb col "id" then r.1.1
                else if String.eqb col "world_id" then r.2 else 0)
    (fun col => if String.eqb col "name" then r.1.2 else "").

Definition select (f : Z * string * Z -> bool) (s : Store) : option DBResult :=
  row_of <$> List.find f (players s).

#[global] Instance store_database : Database Store := {|
  storeQuery q s :=
    match q with
    | SelectPlayerById id world =>
        select (fun r => (r.1.1 =? id)%Z && (r.2 =? world)%Z) s
    | SelectPlayerByName name world | SelectIdByName name world =>
        select (fun r => String.eqb r.1.2 name && (r.2 =? world)%Z) s
    | _ => None
    end;
  executeQuery q s :=
    match q with
    | InsertPlayersOnline guid world =>
        (true, mkStore (players s) (players_online s ++ [(guid, world)])
                       (written s) (accepts_commit s))
    | DeletePlayersOnline guid world =>
        (true, mkStore (players s)
                       (filter (fun r => r <> (guid, world)) (players_online s))
                       (written s) (accepts_commit s))
    | _ => (false, s)
    end;
  commit s := accepts_commit s
|}.

Record Player : Type := mkPlayer {
  name : string;
  failing_saver : option SaverStep;
  failing_loader : option LoaderStep;
  loaded : list LoaderStep
}.

(** Every saver step writes its row; the failing one returns [false]
    after its write.  Every loader step marks its sub-aggregate loaded;
    the failing one throws. *)
#[global] Instance player_collaborators : Collaborators Player Store := {|
  getName p := name p;
  run_saver s p db :=
    (inr (negb (bool_decide (failing_saver p = Some s))),
     mkStore (players db) (players_online db)
             (written db ++ [(s, name p)]) (accepts_commit db));
  run_loader s cursor db p :=
    if bool_decide (failing_loader p = Some s)
    then (Some (std_exception "malformed row"), p)
    else (None, mkPlayer (name p) (failing_saver p) (failing_loader p)
                         (loaded p ++ [s]))
|}.

Record Acct : Type := mkAcct {
  descriptor : string;
  characters : gmap string Character
}.

#[global] Instance acct_api : Account.Api Acct := {|
  Account.make d :=
    mkAcct d (<["Bob" := mkCharacter 1700000000]>
               (<["Alice" := mkCharacter 0]> ∅));
  Account.setProtocolCompat _ a := a;
  Account.load a := (0, a);
  Account.authenticate a := (true, a);
  Account.authenticate_password pw a := (String.eqb pw "secret", a);
  Account.getAccountPlayers a := (characters a, 0);
  Account.getID _ := 42;
  Account.getDescriptor a := descriptor a;
  Account.AccountErrors_Ok := 0;
  Account.value_initialized := mkCharacter 0
|}.

Definition store0 : Store :=
  mkStore [(7, "Alice", 1); (0, "Nobody", 1)] [] [] true.

Definition world0 : World Store :=
  mkWorld store0 1 "password" ∅ ∅ [] [].

Definition alice : Player := mkPlayer "Alice" None None [].

Definition alice_row : DBResult := row_of (7, "Alice", 1).

End Fixture.

(** ** Further lookups (lines 61-70, 300-317, 345-366, 393-410) *)

(** The statements of the further lookups, one constructor per format
    string, with the values bound into it. *)
Inductive Statement : Type :=
  (* SELECT `type` FROM `accounts` WHERE `id` = {} *)
  | SelectAccountType (accountId : Z)
  (* SELECT `name`, `id`, `group_id`, `account_id` FROM `players`
     WHERE `name` = {} AND `world_id` = {} *)
  | SelectPlayerEx (name : string) (world : Z)
  (* SELECT `player_id`, (SELECT `name` FROM `players` WHERE `id` = `player_id`)
     AS `name`, `description`, `icon`, `notify` FROM `account_viplist`
     WHERE `account_id` = {} AND `world_id` = {} *)
  | SelectVipList (accountId world : Z)
  (* SELECT `id`, `name`, `customizable` FROM `account_vipgroups`
     WHERE `account_id` = {} *)
  | SelectVipGroups (accountId : Z).

(** A non-null [DBResult_ptr] over several rows: the row the cursor is on
    and the rows that successive calls of [next()] reach. *)
Record ResultSet : Type := mkResultSet {
  current : DBResult;
  following : list DBResult
}.

Definition rows (r : ResultSet) : list DBResult := current r :: following r.

(** [result->countResults()]. *)
Definition countResults (r : ResultSet) : nat := length (rows r).

(** [storeQuery] for the statements above; [None] is the null result. *)
Class ResultSets (DB : Type) : Type := {
  storeResultSet : Statement -> DB -> option ResultSet
}.

(** [g_game().groups]: [getGroup] returns a null pointer for an unknown
    group id; [flag_SpecialVIP g] is
    [g->flags[Groups::getFlagNumber(PlayerFlags_t::SpecialVIP)]]. *)
Class Groups (G : Type) : Type := {
  getGroup : Z -> option G;
  flag_SpecialVIP : G -> bool
}.

(** [result->getNumber<uint8_t>(col)] and [result->getNumber<uint16_t>(col)]. *)
Definition uint8 (z : Z) : Z := z mod 2 ^ 8.

Definition uint16 (z : Z) : Z := z mod 2 ^ 16.

Definition getNumber_uint8 (r : DBResult) (col : string) : Z :=
  uint8 (getNumber r col).

Definition getNumber_uint16 (r : DBResult) (col : string) : Z :=
  uint16 (getNumber r col).

(** The arguments of [entries.emplace_back(...)] in [getVIPEntries]. *)
Record VIPEntry : Type := mkVIPEntry {
  vip_guid : Z;
  vip_name : string;
  vip_description : string;
  vip_icon : Z;
  vip_notify : bool
}.

(** The arguments of [entries.emplace_back(...)] in [getVIPGroupEntries]. *)
Record VIPGroupEntry : Type := mkVIPGroupEntry {
  group_id : Z;
  group_name : string;
  group_customizable : bool
}.

(** [do { entries.emplace_back(make(row)); } while (result->next());]
    started on [row], with [rest] the rows still ahead of the cursor. *)
Fixpoint do_while_next {E : Type} (make : DBResult -> E) (row : DBResult)
    (rest : list DBResult) (entries : list E) : list E :=
  let entries := entries ++ [make row] in
  match rest with
  | [] => entries
  | row :: rest => do_while_next make row rest entries
  end.

(** The sequence of logins and logouts [(guid, login)] handed to
    [updateOnlineStatus], oldest first. *)
Definition Events : Type := list (Z * bool).

Section Lookups.

Context {DB : Type} `{!Database DB} `{!ResultSets DB}.
Context {G : Type} `{!Groups G}.

(** [ACCOUNT_TYPE_NORMAL] of [enums/account_type.hpp]. *)
Context (ACCOUNT_TYPE_NORMAL : Z).


(** Lines 300-317.  [guid], [specialVip] and [name] are in-out parameters:
    the result holds the return value and their values on return. *)
Definition getGuidByNameEx (guid : Z) (specialVip : bool) (name : string)
    (w : World DB) : bool * Z * bool * string :=
  let db := database w in
  let query := SelectPlayerEx name (worldId w) in
  let result := storeResultSet query db in
  match result with
  | None => (false, guid, specialVip, name)
  | Some result =>
      let name := getString (current result) "name" in
      let guid := getNumber_uint32 (current result) "id" in
      let specialVip :=
        match getGroup (getNumber_uint16 (current result) "group_id") with
        | Some group => flag_SpecialVIP group
        | None => false
        end in
      (true, guid, specialVip, name)
  end.

(** Lines 345-366. *)
Definition getVIPEntries (accountId : Z) (w : World DB) : list VIPEntry :=
  let query := SelectVipList accountId (worldId w) in
  let entries : list VIPEntry := [] in
  match storeResultSet query (database w) with
  | Some result =>
      do_while_next
        (fun row =>
           mkVIPEntry (getNumber_uint32 row "player_id")
                      (getString row "name")
                      (getString row "description")
                      (getNumber_uint32 row "icon")
                      (negb (getNumber_uint16 row "notify" =? 0)))
        (current result) (following result) entries
  | None => entries
  end.

(** Lines 393-410. *)
Definition getVIPGroupEntries (accountId guid : Z) (w : World DB)
    : list VIPGroupEntry :=
  let query := SelectVipGroups accountId in
  let entries : list VIPGroupEntry := [] in
  match storeResultSet query (database w) with
  | Some result =>
      do_while_next
        (fun row =>
           mkVIPGroupEntry (getNumber_uint8 row "id")
                           (getString row "name")
                           (if getNumber_uint8 row "customizable" =? 0
                            then false else true))
        (current result) (following result) entries
  | None => entries
  end.

(** [updateOnlineStatus] called once per event, in order. *)
Definition replay (events : Events) (w : World DB) : World DB :=
  fold_left (fun w e => updateOnlineStatus e.1 e.2 w) events w.

End Lookups.

(** The entry built from a row of the VIP list. *)
Definition VIPEntry_of (row : DBResult) : VIPEntry :=
  mkVIPEntry (getNumber_uint32 row "player_id") (getString row "name")
             (getString row "description") (getNumber_uint32 row "icon")
             (negb (getNumber_uint16 row "notify" =? 0)).

(** The entry built from a row of the VIP groups. *)
Definition VIPGroupEntry_of (row : DBResult) : VIPGroupEntry :=
  mkVIPGroupEntry (getNumber_uint8 row "id") (getString row "name")
                  (negb (getNumber_uint8 row "customizable" =? 0)).

(** The tracked identities are positive and marked [true]. *)
Definition tracked_ok {DB : Type} (w : World DB) : Prop :=
  forall guid b, updateOnline w !! guid = Some b -> 0 < guid /\ b = true.

(** How far the presence counter is above the number of tracked
    identities. *)
Definition presence_excess {DB : Type} (w : World DB) : Z :=
  presence w - Z.of_nat (size (updateOnline w)).


(** ** Concrete result sets and groups *)
Module Tables.

(** Account 1 has two VIP entries and one VIP group; the player lookup
    reads the [players] table of the store; group 2 has the special-VIP
    flag, group 5 does not exist. *)
Definition vip_row (id : Z) (name description : string) (icon notify : Z)
    : DBResult :=
  mkDBResult
    (fun col => if String.eqb col "player_id" then id
                else if String.eqb col "icon" then icon
                else if String.eqb col "notify" then notify else 0)
    (fun col => if String.eqb col "name" then name
                else if String.eqb col "description" then description else "").

Definition player_row (r : Z * string * Z) (group : Z) : DBResult :=
  mkDBResult
    (fun col => if String.eqb col "id" then r.1.1
                else if String.eqb col "group_id" then group else 0)
    (fun col => if String.eqb col "name" then r.1.2 else "").

#[global] Instance store_result_sets : ResultSets Fixture.Store := {|
  storeResultSet q s :=
    match q with
    | SelectVipList 1 _ =>
        Some (mkResultSet (vip_row 7 "Alice" "friend" 3 1)
                          [vip_row 8 "Carol" "" 0 0])
    | SelectPlayerEx name world =>
        (fun r => mkResultSet (player_row r (if (r.1.1 =? 7)%Z then 2 else 5)) [])
          <$> List.find (fun r => String.eqb r.1.2 name && (r.2 =? world)%Z)
                        (Fixture.players s)
    | SelectAccountType 1 =>
        Some (mkResultSet (mkDBResult (fun _ => 261) (fun _ => "")) [])
    | _ => None
    end
|}.

#[global] Instance groups : Groups bool := {|
  getGroup id := if (id =? 2)%Z then Some true else None;
  flag_SpecialVIP g := g
|}.

End Tables.

(** * Properties *)

Section Properties.

Context {DB : Type} `{!Database DB}.
Context {P : Type} `{!Collaborators P DB}.
Context {A : Type} `{!Account.Api A}.

Lemma world_eta (w : World DB) :
  mkWorld (database w) (worldId w) (AUTH_TYPE w) (metrics w) (updateOnline w)
          (logger w) (invoked w) = w.
Proof. by destruct w. Qed.

(** ** The saver sequence *)

Lemma run_savers_ran (steps : list SaverStep) (p : P) (db : DB) :
  forall failed ran db',
    run_savers steps p db = (failed, ran, db') ->
    ran `prefix_of` steps /\
    (failed = None -> ran = steps) /\
    (forall s, failed = Some s ->
       exists before, ran = before ++ [s] /\
                      run_savers before p db = (None, before, (run_savers before p db).2) /\
                      (run_saver s p (run_savers before p db).2).1 <> inr true).
Proof.
  revert db. induction steps as [|s steps IH]; intros db failed ran db' Hrun.
  - simpl in Hrun. injection Hrun as <- <- <-.
    split; [done|]. split; [done|]. discriminate.
  - simpl in Hrun.
    destruct (run_saver s p db) as [[e|[|]] db1] eqn:Hs.
    2: { destruct (run_savers steps p db1) as [[failed1 ran1] db2] eqn:Hrest.
         injection Hrun as <- <- <-.
         destruct (IH _ _ _ _ Hrest) as (Hpre & Hall & Hfail).
         split; [by apply prefix_cons|].
         split; [intros ->; by rewrite Hall|].
         intros s' ->. destruct (Hfail s' eq_refl) as (before & -> & Hb & Hs').
         exists (s :: before). simpl. rewrite Hs. rewrite Hb. simpl.
         split; [done|]. split; [done|]. exact Hs'. }
    all: injection Hrun as <- <- <-.
    all: split; [apply prefix_cons, prefix_nil|].
    all: split; [discriminate|].
    all: intros s' [= <-]; exists []; simpl; rewrite Hs; done.
Qed.

Ltac step_saver :=
  match goal with
  | |- context [run_saver ?s ?p ?d] =>
      destruct (run_saver s p d) as [[?|[|]] ?] eqn:?; cbn
  end.

(** [savePlayerGuard] runs the declared sequence up to the first failing
    step: it returns [true] when no step fails and throws otherwise. *)
Lemma savePlayerGuard_run (p : P) (w : World DB) :
  let '(failed, ran, db) := run_savers saver_order p (database w) in
  exists outcome,
    savePlayerGuard (Some p) w = (outcome, after (map Saver ran) db w) /\
    match failed with
    | None => outcome = inr true
    | Some _ => exists e, outcome = inl e
    end.
Proof.
  unfold savePlayerGuard, saver_order, must, bind, IOLoginDataSave, after,
    record, set_database, throw, ret.
  cbn.
  repeat (step_saver;
          [ eexists; split;
              [rewrite <- ?app_assoc; reflexivity | eexists; reflexivity]
          |
          | eexists; split;
              [rewrite <- ?app_assoc; reflexivity | eexists; reflexivity] ]).
  eexists; split; [rewrite <- ?app_assoc; reflexivity | reflexivity].
Qed.

(** ** The loader sequence *)

Lemma run_loaders_app (l1 l2 : list LoaderStep) (r : DBResult) (db : DB) (p : P) :
  run_loaders (l1 ++ l2) r db p =
    match run_loaders l1 r db p with
    | (Some e, ran, p') => (Some e, ran, p')
    | (None, ran, p') =>
        let '(e, ran2, p'') := run_loaders l2 r db p' in (e, ran ++ ran2, p'')
    end.
Proof.
  revert p. induction l1 as [|s l1 IH]; intros p; simpl.
  - by destruct (run_loaders l2 r db p) as [[? ?] ?].
  - destruct (run_loader s _ db p) as [[e|] p1]; [done|].
    rewrite IH.
    destruct (run_loaders l1 r db p1) as [[[e|] ran] p2]; [done|].
    by destruct (run_loaders l2 r db p2) as [[? ?] ?].
Qed.

Lemma run_loaders_ran (steps : list LoaderStep) (r : DBResult) (db : DB) :
  forall p e ran p',
    run_loaders steps r db p = (e, ran, p') ->
    ran `prefix_of` steps /\ (e = None -> ran = steps).
Proof.
  induction steps as [|s steps IH]; intros p e ran p' Hrun; simpl in Hrun.
  - by injection Hrun as <- <- <-.
  - destruct (run_loader s _ db p) as [[e1|] p1].
    + injection Hrun as <- <- <-. split; [apply prefix_cons, prefix_nil|done].
    + destruct (run_loaders steps r db p1) as [[e2 ran2] p2] eqn:Hrest.
      injection Hrun as <- <- <-. destruct (IH _ _ _ _ Hrest) as [Hpre Hall].
      split; [by apply prefix_cons|]. intros ->. by rewrite Hall.
Qed.

Lemma run_loaders_head (s : LoaderStep) (steps : list LoaderStep)
    (r : DBResult) (db : DB) (p : P) :
  exists e ran p', run_loaders (s :: steps) r db p = (e, s :: ran, p').
Proof.
  simpl. destruct (run_loader s _ db p) as [[e|] p1]; [by eexists _, [], _|].
  destruct (run_loaders steps r db p1) as [[e ran] p2]. by eexists _, _, _.
Qed.

Ltac step_loader :=
  match goal with
  | |- context [run_loader ?s ?c ?d ?p] =>
      destruct (run_loader s c d p) as [[?|] ?] eqn:?; cbn
  end.

(** The [try] block runs the declared sequence of its mode up to the first
    step that throws. *)
Lemma loadPlayer_try_run (r : DBResult) (disable : bool) (p : P) (w : World DB) :
  let '(e, ran, p') :=
    run_loaders (if disable then preload_order else loader_order)
                r (database w) p in
  loadPlayer_try r disable (p, w) =
    (match e with Some e => inl e | None => inr true end,
     (p', after (map Loader ran) (database w) w)).
Proof.
  unfold loadPlayer_try, loader_order, preload_order, final_block, bind,
    IOLoginDataLoad, after, record, ret.
  destruct disable; cbn;
    repeat (step_loader; [rewrite <- ?app_assoc; reflexivity | ]);
    rewrite <- ?app_assoc; reflexivity.
Qed.

(** ** The save transaction *)

(** [savePlayer] on a non-null aggregate, in terms of the saver sequence:
    success needs every step and the commit; anything else restores the
    store the call started from. *)
Lemma savePlayer_run (p : P) (w : World DB) :
  let '(failed, ran, db) := run_savers saver_order p (database w) in
  savePlayer (Some p) w =
    match failed with
    | None =>
        if commit db then (true, after (map Saver ran) db w)
        else (false, log (log_error "[savePlayer] Error occurred saving player")
                         (after (map Saver ran) (database w) w))
    | Some _ =>
        (false, log (log_error "[savePlayer] Error occurred saving player")
                    (after (map Saver ran) (database w) w))
    end.
Proof.
  pose proof (savePlayerGuard_run p w) as Hguard.
  destruct (run_savers saver_order p (database w)) as [[failed ran] db].
  destruct Hguard as (outcome & Hguard & Hout).
  unfold savePlayer, executeWithinTransaction. rewrite Hguard.
  destruct failed as [s|].
  - destruct Hout as [e ->]. reflexivity.
  - subst outcome. cbn. destruct (commit db); reflexivity.
Qed.

Lemma savePlayerGuard_null (w : World DB) :
  savePlayerGuard (@None P) w =
    (inl (DatabaseException "Player nullptr in function: savePlayerGuard"), w).
Proof. reflexivity. Qed.

Lemma savePlayer_null_run (w : World DB) :
  savePlayer (@None P) w =
    (false, log (log_error "[savePlayer] Error occurred saving player") w).
Proof.
  unfold savePlayer, executeWithinTransaction. rewrite savePlayerGuard_null.
  cbn. unfold set_database. by rewrite world_eta.
Qed.

(** C1.  [savePlayer] returns success only if every saver step succeeded
    and the transaction scope committed.  If a step fails (the first one
    included) the steps after it are not invoked, the call reports failure
    and the store is the one the call started from, so every earlier write
    of the call is rolled back.  A commit that fails after all steps
    succeeded is reported as a failure as well. *)
Theorem savePlayer_atomic (player : option P) (w : World DB) :
  let result := savePlayer player w in
  (result.1 = true ->
     exists p db,
       player = Some p /\
       run_savers saver_order p (database w) = (None, saver_order, db) /\
       commit db = true /\
       database result.2 = db) /\
  (forall p s ran db,
     player = Some p ->
     run_savers saver_order p (database w) = (Some s, ran, db) ->
     result.1 = false /\
     database result.2 = database w /\
     exists before rest,
       saver_order = before ++ s :: rest /\
       invoked result.2 = invoked w ++ map Saver (before ++ [s])) /\
  (forall p db,
     player = Some p ->
     run_savers saver_order p (database w) = (None, saver_order, db) ->
     commit db = false ->
     result.1 = false /\ database result.2 = database w).
Proof.
  intros result. subst result. destruct player as [p|].
  - pose proof (savePlayer_run p w) as Hrun.
    destruct (run_savers saver_order p (database w)) as [[failed ran] db] eqn:Hseq.
    destruct (run_savers_ran _ _ _ _ _ _ Hseq) as (Hpre & Hall & Hfail).
    rewrite Hrun. split; [|split].
    + destruct failed as [s|]; [discriminate|].
      destruct (commit db) eqn:Hcommit; [|discriminate].
      intros _. exists p, db. by rewrite Hseq, (Hall eq_refl).
    + intros p' s ran' db' [= <-]. rewrite Hseq. intros [= -> <- <-].
      split; [done|]. split; [done|].
      destruct (Hfail s eq_refl) as (before & -> & _ & _).
      destruct Hpre as [rest Hrest]. exists before, rest.
      split; [by rewrite Hrest, <- app_assoc|done].
    + intros p' db' [= <-]. rewrite Hseq. intros [= -> _ <-] Hcommit.
      by rewrite Hcommit.
  - rewrite savePlayer_null_run. split; [discriminate|].
    split; intros; discriminate.
Qed.

(** C2.  A save that succeeds has invoked the saver steps in the declared
    order, each exactly once: base fields, stash, spells, kills, bestiary,
    items, depot items, reward items, inbox, prey, task hunting, forge
    history, bosstiary, wheel points, storage.  This holds for the guard
    alone and for the whole transaction. *)
Theorem savePlayer_order (player : option P) (w w' : World DB) :
  (forall b, savePlayerGuard player w = (inr b, w') ->
     b = true /\ invoked w' = invoked w ++ map Saver saver_order) /\
  (savePlayer player w = (true, w') ->
     invoked w' = invoked w ++ map Saver saver_order).
Proof.
  destruct player as [p|].
  - pose proof (savePlayerGuard_run p w) as Hguard.
    pose proof (savePlayer_run p w) as Hrun.
    destruct (run_savers saver_order p (database w)) as [[failed ran] db] eqn:Hseq.
    destruct (run_savers_ran _ _ _ _ _ _ Hseq) as (_ & Hall & _).
    destruct Hguard as (outcome & Hguard & Hout).
    split.
    + intros b. rewrite Hguard. intros [= -> <-].
      destruct failed as [s|]; [by destruct Hout|].
      injection Hout as <-. by rewrite (Hall eq_refl).
    + rewrite Hrun. destruct failed as [s|]; [discriminate|].
      destruct (commit db); [|discriminate].
      intros [= <-]. by rewrite (Hall eq_refl).
  - split.
    + intros b. rewrite savePlayerGuard_null. discriminate.
    + rewrite savePlayer_null_run. discriminate.
Qed.

(** C8.  For a null aggregate the guard throws before any saver step, and
    [savePlayer] returns failure: no step is invoked and the store is
    unchanged. *)
Theorem savePlayer_null (w : World DB) :
  (exists e, savePlayerGuard (@None P) w = (inl e, w)) /\
  (savePlayer (@None P) w).1 = false /\
  invoked (savePlayer (@None P) w).2 = invoked w /\
  database (savePlayer (@None P) w).2 = database w.
Proof.
  split; [eexists; apply savePlayerGuard_null|].
  by rewrite savePlayer_null_run.
Qed.

(** ** The load pipeline *)

(** [loadPlayer] on a non-null aggregate and a non-null cursor, in terms
    of the loader sequence of its mode. *)
Lemma loadPlayer_run (p : P) (r : DBResult) (disable : bool) (w : World DB) :
  let '(e, ran, p') := run_loaders (mode_order disable) r (database w) p in
  loadPlayer (Some p) (Some r) disable w =
    match e with
    | None => (true, Some p', after (map Loader ran) (database w) w)
    | Some e =>
        (false, Some p',
         log (load_failure e) (after (map Loader ran) (database w) w))
    end.
Proof.
  pose proof (loadPlayer_try_run r disable p w) as Htry. unfold mode_order.
  destruct (run_loaders _ r (database w) p) as [[e ran] p'].
  unfold loadPlayer. rewrite Htry. by destruct e as [[]|].
Qed.

Lemma loadPlayer_null (player : option P) (result : option DBResult)
    (disable : bool) (w : World DB) :
  player = None \/ result = None ->
  loadPlayer player result disable w = (false, player, log (null_argument result) w).
Proof. by destruct player, result; intros [|]. Qed.

Lemma prefix_invoked_before {X : Type} (a b : X) (l k : list X) :
  l `prefix_of` k -> invoked_before a b k -> invoked_before a b l.
Proof.
  intros Hpre Hk j Hj.
  destruct (Hk j (prefix_lookup_Some _ _ _ _ Hj Hpre)) as (i & Hij & Hi).
  exists i. split; [done|].
  destruct Hpre as [rest ->].
  rewrite lookup_app_l in Hi; [done|].
  apply lookup_lt_Some in Hj. lia.
Qed.

Lemma invoked_before_split {X : Type} (a b : X) (l1 l2 : list X) :
  a <> b -> b ∉ l1 -> invoked_before a b (l1 ++ a :: l2).
Proof.
  intros Hab Hb j Hj. exists (length l1). split.
  - destruct (decide (j < length l1)%nat) as [Hlt|Hge].
    + rewrite lookup_app_l in Hj by done.
      destruct Hb. by eapply list_elem_of_lookup_2.
    + destruct (decide (j = length l1)) as [->|Hne]; [|lia].
      rewrite list_lookup_middle in Hj by done. congruence.
  - by apply list_lookup_middle.
Qed.

Lemma first_before_item_containers (s : LoaderStep) :
  s ∈ item_container_steps -> invoked_before loadPlayerFirst s loader_order.
Proof.
  intros Hs. apply (invoked_before_split _ _ []).
  - intros <-. revert Hs. by apply (bool_decide_unpack (_ ∉ _)).
  - apply not_elem_of_nil.
Qed.

Lemma inventory_before_dependents (s : LoaderStep) :
  s ∈ container_dependent_steps ->
  invoked_before loadPlayerInventoryItems s loader_order.
Proof.
  intros Hs.
  apply (invoked_before_split _ _
           (take 11 loader_order) (drop 12 loader_order)).
  - intros <-. revert Hs. by apply (bool_decide_unpack (_ ∉ _)).
  - unfold container_dependent_steps in Hs.
    rewrite !elem_of_cons, elem_of_nil in Hs.
    destruct Hs as [->|[->|[->|[->|[]]]]];
      by apply (bool_decide_unpack (_ ∉ _)).
Qed.

(** C3.  The loader steps invoked under the minimal mode are a prefix of
    those invoked under the full mode.  What the full mode adds is a
    prefix of the final block (forge history, bosstiary, the two system
    passes): nothing when the minimal load fails, in which case both modes
    return the same result and state, and otherwise the final block run on
    the aggregate that the minimal load returns. *)
Theorem minimal_prefix_of_full (player : option P) (result : option DBResult)
    (w : World DB) :
  let minimal := loadPlayer player result true w in
  let full := loadPlayer player result false w in
  exists ran skipped,
    invoked minimal.2 = invoked w ++ map Loader ran /\
    invoked full.2 = invoked w ++ map Loader (ran ++ skipped) /\
    ran `prefix_of` preload_order /\
    skipped `prefix_of` final_block /\
    (minimal.1.1 = false -> skipped = [] /\ full = minimal) /\
    (minimal.1.1 = true ->
       ran = preload_order /\
       exists r pm e pf,
         result = Some r /\ minimal.1.2 = Some pm /\
         run_loaders final_block r (database w) pm = (e, skipped, pf) /\
         full.1.2 = Some pf /\
         (full.1.1 = true -> skipped = final_block)).
Proof.
  intros minimal full. subst minimal full.
  destruct player as [p|], result as [r|];
    [ | exists [], []; rewrite !loadPlayer_null by auto; cbn;
        rewrite app_nil_r; repeat split; (done || apply prefix_nil) .. ].
  pose proof (loadPlayer_run p r true w) as Hmin.
  pose proof (loadPlayer_run p r false w) as Hfull.
  unfold mode_order in Hmin, Hfull. unfold loader_order in Hfull.
  rewrite run_loaders_app in Hfull.
  destruct (run_loaders preload_order r (database w) p) as [[e1 ran1] p1] eqn:H1.
  destruct (run_loaders_ran _ _ _ _ _ _ _ H1) as [Hpre1 Hall1].
  rewrite Hmin. destruct e1 as [e1|].
  - rewrite Hfull. exists ran1, []. rewrite app_nil_r.
    repeat split; (done || apply prefix_nil).
  - destruct (run_loaders final_block r (database w) p1) as [[e2 ran2] p2] eqn:H2.
    destruct (run_loaders_ran _ _ _ _ _ _ _ H2) as [Hpre2 Hall2].
    rewrite Hfull. exists ran1, ran2.
    split; [done|]. split; [by destruct e2|].
    split; [done|]. split; [done|]. split; [discriminate|].
    intros _. split; [by apply Hall1|].
    exists r, p1, e2, p2. rewrite H2.
    destruct e2 as [e2|]; repeat split; (done || by intros _; apply Hall2).
Qed.

(** C4.  Every load invokes a prefix of the declared order, all of the
    order of its mode when it succeeds.  In the calls made, the base step
    [loadPlayerFirst] comes before every item-container step, and the
    inventory step comes before store inbox, depot, reward and inbox. *)
Theorem loadPlayer_order (player : option P) (result : option DBResult)
    (disable : bool) (w : World DB) :
  exists ran,
    invoked (loadPlayer player result disable w).2 = invoked w ++ map Loader ran /\
    ran `prefix_of` loader_order /\
    ((loadPlayer player result disable w).1.1 = true -> ran = mode_order disable) /\
    (forall s, s ∈ item_container_steps -> invoked_before loadPlayerFirst s ran) /\
    (forall s, s ∈ container_dependent_steps ->
       invoked_before loadPlayerInventoryItems s ran).
Proof.
  assert (Hsub : forall ran, ran `prefix_of` loader_order ->
    (forall s, s ∈ item_container_steps -> invoked_before loadPlayerFirst s ran) /\
    (forall s, s ∈ container_dependent_steps ->
       invoked_before loadPlayerInventoryItems s ran)).
  { intros ran Hpre. split; intros s Hs.
    - eapply prefix_invoked_before; [done|]. by apply first_before_item_containers.
    - eapply prefix_invoked_before; [done|]. by apply inventory_before_dependents. }
  destruct player as [p|], result as [r|];
    [ | exists []; rewrite !loadPlayer_null by auto; cbn;
        rewrite app_nil_r; split; [done|]; split; [apply prefix_nil|];
        split; [discriminate | apply Hsub, prefix_nil] .. ].
  pose proof (loadPlayer_run p r disable w) as Hrun.
  destruct (run_loaders (mode_order disable) r (database w) p)
    as [[e ran] p'] eqn:Hseq.
  destruct (run_loaders_ran _ _ _ _ _ _ _ Hseq) as [Hpre Hall].
  assert (Hpre' : ran `prefix_of` loader_order).
  { destruct disable; [|done]. by apply prefix_app_r. }
  rewrite Hrun. exists ran.
  split; [by destruct e|]. split; [done|].
  split; [destruct e; [discriminate|by intros _; apply Hall]|].
  by apply Hsub.
Qed.

(** C7, as the code has it.  [loadPlayer] fails at its argument check,
    before any loader step, exactly when the cursor or the aggregate is
    absent: either one suffices.  The warning names the cursor whenever it
    is absent and the player otherwise.  With both present the step
    sequence is entered.  A lookup by id or by name that finds no row
    hands [loadPlayer] an absent cursor and fails at this check. *)
Theorem loadPlayer_argument_check (player : option P)
    (result : option DBResult) (disable : bool) (w : World DB) :
  (player = None \/ result = None ->
     loadPlayer player result disable w =
       (false, player, log (null_argument result) w)) /\
  (forall p r, player = Some p -> result = Some r ->
     exists ran,
       invoked (loadPlayer player result disable w).2 =
         invoked w ++ Loader loadPlayerFirst :: ran) /\
  (forall id, storeQuery (SelectPlayerById id (worldId w)) (database w) = None ->
     loadPlayerById player id disable w =
       (false, player, log (log_warn "[loadPlayer] - Result is nullptr") w)) /\
  (forall name, storeQuery (SelectPlayerByName name (worldId w)) (database w) = None ->
     loadPlayerByName player name disable w =
       (false, player, log (log_warn "[loadPlayer] - Result is nullptr") w)).
Proof.
  split; [apply loadPlayer_null|]. split.
  - intros p r -> ->.
    pose proof (loadPlayer_run p r disable w) as Hrun.
    assert (Hhead : exists e ran p',
      run_loaders (mode_order disable) r (database w) p =
        (e, loadPlayerFirst :: ran, p')).
    { destruct disable; apply run_loaders_head. }
    destruct Hhead as (e & ran & p' & Hseq). rewrite Hseq in Hrun.
    rewrite Hrun. exists (map Loader ran). by destruct e.
  - split; intros x Hx.
    + unfold loadPlayerById. rewrite Hx. by rewrite loadPlayer_null by auto.
    + unfold loadPlayerByName. rewrite Hx. by rewrite loadPlayer_null by auto.
Qed.

(** ** The online-status tracker *)

Lemma counter_addUpDownCounter (name : string) (delta : Z) (m : gmap string Z) :
  counter name (addUpDownCounter name delta m) = counter name m + delta.
Proof. unfold counter, addUpDownCounter. by rewrite lookup_insert_eq. Qed.

(** A login for a tracked identity, and any call with a non-positive
    identity, return the world unchanged. *)
Lemma updateOnlineStatus_skip (guid : Z) (login : bool) (w : World DB) :
  (login = true /\ is_Some (updateOnline w !! guid)) \/ guid <= 0 ->
  updateOnlineStatus guid login w = w.
Proof.
  intros Hskip. unfold updateOnlineStatus.
  destruct Hskip as [[-> Htracked]|Hzero].
  - by rewrite bool_decide_eq_true_2.
  - replace (guid <=? 0) with true by (symmetry; by apply Z.leb_le).
    by rewrite orb_true_r.
Qed.

Lemma updateOnlineStatus_login (guid : Z) (w : World DB) :
  0 < guid -> updateOnline w !! guid = None ->
  updateOnlineStatus guid true w =
    mkWorld (executeQuery (InsertPlayersOnline guid (worldId w)) (database w)).2
            (worldId w) (AUTH_TYPE w)
            (addUpDownCounter "players_online" 1 (metrics w))
            (<[guid := true]> (updateOnline w))
            (logger w) (invoked w).
Proof.
  intros Hpos Hnew. unfold updateOnlineStatus.
  rewrite bool_decide_eq_false_2 by (rewrite Hnew; by intros [? ?]).
  replace (guid <=? 0) with false by (symmetry; apply Z.leb_gt; lia).
  reflexivity.
Qed.

Lemma updateOnlineStatus_logout (guid : Z) (w : World DB) :
  0 < guid ->
  updateOnlineStatus guid false w =
    mkWorld (executeQuery (DeletePlayersOnline guid (worldId w)) (database w)).2
            (worldId w) (AUTH_TYPE w)
            (addUpDownCounter "players_online" (-1) (metrics w))
            (delete guid (updateOnline w))
            (logger w) (invoked w).
Proof.
  intros Hpos. unfold updateOnlineStatus.
  replace (guid <=? 0) with false by (symmetry; apply Z.leb_gt; lia).
  reflexivity.
Qed.

(** C5, as the code has it.  A logout for an identity that is not tracked
    raises no error and leaves the tracked set unchanged.  For the zero
    identity nothing changes at all.  For a non-zero identity the presence
    counter is still decremented by one and the delete of the presence row
    (identity, world) is still sent to the store. *)
Theorem markOffline_untracked (guid : Z) (w : World DB) :
  updateOnline w !! guid = None ->
  let w' := updateOnlineStatus guid false w in
  updateOnline w' = updateOnline w /\
  (guid <= 0 -> w' = w) /\
  (0 < guid ->
     presence w' = presence w - 1 /\
     database w' =
       (executeQuery (DeletePlayersOnline guid (worldId w)) (database w)).2).
Proof.
  intros Hnew w'. subst w'.
  destruct (decide (guid <= 0)) as [Hzero|Hpos].
  - rewrite updateOnlineStatus_skip by auto.
    split; [done|]. split; [done|]. lia.
  - rewrite updateOnlineStatus_logout by lia. unfold presence. cbn.
    rewrite counter_addUpDownCounter.
    split; [by apply delete_id|]. split; [lia|]. intros _. split; [lia|done].
Qed.

(** C6.  For a non-zero identity the second of two successive logins
    changes nothing.  Starting from an untracked identity the two logins
    together send exactly one presence-row insert to the store and raise
    the presence counter by exactly one.  A login with the zero identity
    changes nothing. *)
Theorem markOnline_idempotent (guid : Z) (w : World DB) :
  0 < guid ->
  let w1 := updateOnlineStatus guid true w in
  let w2 := updateOnlineStatus guid true w1 in
  w2 = w1 /\
  (updateOnline w !! guid = None ->
     presence w2 = presence w + 1 /\
     database w2 =
       (executeQuery (InsertPlayersOnline guid (worldId w)) (database w)).2 /\
     updateOnline w2 = <[guid := true]> (updateOnline w)) /\
  updateOnlineStatus 0 true w = w.
Proof.
  intros Hpos w1 w2. subst w1 w2.
  assert (Htracked : is_Some (updateOnline (updateOnlineStatus guid true w) !! guid)).
  { destruct (updateOnline w !! guid) as [b|] eqn:Hw.
    - rewrite updateOnlineStatus_skip by (left; by rewrite Hw). by rewrite Hw.
    - rewrite updateOnlineStatus_login by done. cbn.
      rewrite lookup_insert_eq. by eexists. }
  rewrite (updateOnlineStatus_skip guid true (updateOnlineStatus guid true w))
    by (left; done).
  split; [done|]. split.
  - intros Hnew. rewrite updateOnlineStatus_login by done. unfold presence. cbn.
    by rewrite counter_addUpDownCounter.
  - apply updateOnlineStatus_skip. right. lia.
Qed.

(** ** The guid lookup *)

(** C10.  When the store has no row for the name in the current world,
    [getGuidByName] returns 0 and raises nothing; a lookup that finds a
    row whose id is 0 returns the same value, so the caller cannot tell
    the two apart. *)
Theorem getGuidByName_not_found (name : string) (w : World DB) :
  storeQuery (SelectIdByName name (worldId w)) (database w) = None ->
  getGuidByName name w = 0 /\
  (forall (name' : string) (w' : World DB) (row : DBResult),
     storeQuery (SelectIdByName name' (worldId w')) (database w') = Some row ->
     getNumber row "id" = 0 ->
     getGuidByName name' w' = getGuidByName name w).
Proof.
  intros Hnone. unfold getGuidByName. rewrite Hnone. split; [done|].
  intros name' w' row -> Hid. unfold getNumber_uint32. by rewrite Hid.
Qed.

(** ** Authentication *)

Lemma gameWorldAuthentication_reached (accountDescriptor password : string)
    (characterName : string) (accountId : Z) (oldProtocol : bool)
    (w : World DB) (account : A) :
  authenticatedAccount accountDescriptor password oldProtocol w = Some account ->
  gameWorldAuthentication accountDescriptor password characterName accountId
      oldProtocol w =
    let '(players, result) := Account.getAccountPlayers account in
    if negb (Account.AccountErrors_Ok =? result) then
      (false, accountId,
       log (log_error ("Failed to load account [" +:+ accountDescriptor
                       +:+ "] players")) w)
    else if negb (deletion (default Account.value_initialized
                              (players !! characterName)) =? 0) then
      (false, accountId,
       log (log_error ("Account [" +:+ accountDescriptor +:+ "] player ["
                       +:+ characterName +:+ "] not found or deleted.")) w)
    else (true, Account.getID account, w).
Proof.
  unfold authenticatedAccount, gameWorldAuthentication.
  destruct (Account.load _) as [code1 a1].
  destruct (negb (Account.AccountErrors_Ok =? code1)); [discriminate|].
  destruct (if String.eqb (AUTH_TYPE w) "session" then _ else _) as [ok a2].
  destruct (negb ok); [discriminate|].
  destruct (Account.load a2) as [code2 a3].
  destruct (negb (Account.AccountErrors_Ok =? code2)); [discriminate|].
  by intros [= ->].
Qed.

(** C9.  When the player set resolved for the request maps the requested
    character name to a non-zero deletion marker, the authentication
    returns failure and the caller's account id is left as it was. *)
Theorem gameWorldAuthentication_deleted (accountDescriptor password : string)
    (characterName : string) (accountId : Z) (oldProtocol : bool)
    (w : World DB) (account : A) (c : Character) :
  authenticatedAccount accountDescriptor password oldProtocol w = Some account ->
  (Account.getAccountPlayers account).1 !! characterName = Some c ->
  deletion c <> 0 ->
  exists w',
    gameWorldAuthentication accountDescriptor password characterName accountId
      oldProtocol w = (false, accountId, w').
Proof.
  intros Hreached Hname Hdeleted.
  rewrite (gameWorldAuthentication_reached _ _ _ _ _ _ _ Hreached).
  destruct (Account.getAccountPlayers account) as [players result].
  cbn in Hname. rewrite Hname. cbn.
  destruct (negb (Account.AccountErrors_Ok =? result)); [by eexists|].
  replace (deletion c =? 0) with false by (symmetry; by apply Z.eqb_neq).
  by eexists.
Qed.

End Properties.

(** * The properties on the concrete store *)

Import Fixture.

(** The ninth saver step fails: the save reports failure, the store is
    the one before the call, and the calls stop at the failing step. *)
Lemma savePlayer_atomic_witness :
  (savePlayer (Some (mkPlayer "Bob" (Some savePlayerInbox) None [])) world0).1
    = false /\
  database (savePlayer (Some (mkPlayer "Bob" (Some savePlayerInbox) None [])) world0).2
    = database world0 /\
  exists before rest,
    saver_order = before ++ savePlayerInbox :: rest /\
    invoked (savePlayer (Some (mkPlayer "Bob" (Some savePlayerInbox) None [])) world0).2
      = invoked world0 ++ map Saver (before ++ [savePlayerInbox]).
Proof.
  eapply (proj1 (proj2 (savePlayer_atomic
            (Some (mkPlayer "Bob" (Some savePlayerInbox) None [])) world0))).
  - reflexivity.
  - vm_compute. reflexivity.
Defined.

Lemma savePlayer_order_witness :
  invoked (savePlayer (Some alice) world0).2 = invoked world0 ++ map Saver saver_order.
Proof.
  apply (proj2 (savePlayer_order (Some alice) world0
                  (savePlayer (Some alice) world0).2)).
  vm_compute. reflexivity.
Defined.

Lemma minimal_prefix_of_full_witness :
  exists ran skipped,
    invoked (loadPlayer (Some alice) (Some alice_row) true world0).2
      = invoked world0 ++ map Loader ran /\
    invoked (loadPlayer (Some alice) (Some alice_row) false world0).2
      = invoked world0 ++ map Loader (ran ++ skipped) /\
    ran = preload_order /\ skipped = final_block.
Proof.
  destruct (minimal_prefix_of_full (Some alice) (Some alice_row) world0)
    as (ran & skipped & Hmin & Hfull & _ & _ & _ & Hok).
  destruct (Hok eq_refl) as (Hran & r & pm & e & pf & _ & _ & _ & _ & Hskipped).
  exists ran, skipped.
  split; [exact Hmin|]. split; [exact Hfull|]. split; [exact Hran|].
  apply Hskipped. vm_compute. reflexivity.
Defined.

Lemma loadPlayer_order_witness :
  exists ran,
    invoked (loadPlayer (Some alice) (Some alice_row) false world0).2
      = invoked world0 ++ map Loader ran /\
    ran = loader_order /\
    invoked_before loadPlayerFirst loadPlayerDepotItems ran /\
    invoked_before loadPlayerInventoryItems loadPlayerDepotItems ran.
Proof.
  destruct (loadPlayer_order (Some alice) (Some alice_row) false world0)
    as (ran & Hran & _ & Hall & Hfirst & Hinventory).
  exists ran. split; [exact Hran|]. split; [apply Hall; reflexivity|].
  split.
  - apply Hfirst. apply (bool_decide_unpack _). exact I.
  - apply Hinventory. apply (bool_decide_unpack _). exact I.
Defined.

Lemma markOffline_untracked_witness :
  updateOnline world0 !! 7 = None /\
  updateOnline (updateOnlineStatus 7 false world0) = updateOnline world0 /\
  presence (updateOnlineStatus 7 false world0) = presence world0 - 1.
Proof.
  split; [reflexivity|].
  destruct (markOffline_untracked 7 world0 eq_refl) as (Hset & _ & Hcount).
  split; [exact Hset|]. apply Hcount. reflexivity.
Defined.

(** C5 fails on the code: identity 7 is not tracked, yet the logout
    changes the presence counter. *)
Lemma markOffline_untracked_changes_counter :
  updateOnline world0 !! 7 = None /\
  presence world0 = 0 /\
  presence (updateOnlineStatus 7 false world0) = -1.
Proof. repeat split. Qed.

Lemma markOnline_idempotent_witness :
  updateOnlineStatus 7 true (updateOnlineStatus 7 true world0)
    = updateOnlineStatus 7 true world0 /\
  presence (updateOnlineStatus 7 true (updateOnlineStatus 7 true world0))
    = presence world0 + 1 /\
  players_online
    (database (updateOnlineStatus 7 true (updateOnlineStatus 7 true world0)))
    = [(7, 1)].
Proof.
  destruct (markOnline_idempotent 7 world0 ltac:(lia)) as (Hsame & Hone & _).
  destruct (Hone eq_refl) as (Hcount & Hstore & _).
  split; [exact Hsame|]. split; [exact Hcount|].
  rewrite Hstore. reflexivity.
Defined.

Lemma loadPlayer_argument_check_witness :
  loadPlayer (@None Player) (Some alice_row) false world0
    = (false, None, log (log_warn "[loadPlayer] - Player is nullptr") world0) /\
  loadPlayerById (Some alice) 9 true world0
    = (false, Some alice, log (log_warn "[loadPlayer] - Result is nullptr") world0).
Proof.
  split.
  - apply (proj1 (loadPlayer_argument_check None (Some alice_row) false world0)).
    left. reflexivity.
  - apply (proj1 (proj2 (proj2
             (loadPlayer_argument_check (Some alice) None true world0)))).
    reflexivity.
Defined.

(** C7 fails on the code: with the player absent and the cursor present
    the load fails at its argument check, although not both are absent. *)
Lemma loadPlayer_rejects_single_absence :
  loadPlayer (@None Player) (Some alice_row) false world0
    = (false, None, log (log_warn "[loadPlayer] - Player is nullptr") world0) /\
  ~ (@None Player = None /\ Some alice_row = None).
Proof. split; [reflexivity|]. intros [_ Habsent]. discriminate Habsent. Qed.

Lemma gameWorldAuthentication_deleted_witness :
  exists w',
    gameWorldAuthentication (A := Acct) "account" "secret" "Bob" 0 false world0
      = (false, 0, w').
Proof.
  apply (gameWorldAuthentication_deleted (A := Acct) "account" "secret" "Bob" 0
           false world0 (Account.make "account") (mkCharacter 1700000000)).
  - reflexivity.
  - vm_compute. reflexivity.
  - discriminate.
Defined.

Lemma getGuidByName_not_found_witness :
  getGuidByName "Zed" world0 = 0 /\
  getGuidByName "Nobody" world0 = getGuidByName "Zed" world0.
Proof.
  assert (Hnone : storeQuery (SelectIdByName "Zed" (worldId world0))
                             (database world0) = None) by reflexivity.
  destruct (getGuidByName_not_found "Zed" world0 Hnone) as [Hzero Hsame].
  split; [exact Hzero|].
  apply (Hsame "Nobody" world0 (row_of (0, "Nobody", 1))); reflexivity.
Defined.

(** * Further properties of the tracker *)

Section Tracker.

Context {DB : Type} `{!Database DB}.

(** What one call of [updateOnlineStatus] does, by cases of its guard. *)
Lemma updateOnlineStatus_cases (guid : Z) (login : bool) (w : World DB) :
  let w' := updateOnlineStatus guid login w in
  (w' = w /\ (guid <= 0 \/ (login = true /\ is_Some (updateOnline w !! guid)))) \/
  (0 < guid /\ login = true /\ updateOnline w !! guid = None /\
   updateOnline w' = <[guid := true]> (updateOnline w) /\
   presence w' = presence w + 1) \/
  (0 < guid /\ login = false /\
   updateOnline w' = delete guid (updateOnline w) /\
   presence w' = presence w - 1).
Proof.
  intros w'. subst w'.
  destruct (decide (guid <= 0)) as [Hzero|Hpos].
  { left. split; [apply updateOnlineStatus_skip|]; auto. }
  destruct login.
  - destruct (updateOnline w !! guid) as [b|] eqn:Hw.
    + left. split; [apply updateOnlineStatus_skip|]; rewrite ?Hw; eauto.
    + right. left. rewrite updateOnlineStatus_login by (done || lia).
      unfold presence. cbn. rewrite counter_addUpDownCounter.
      repeat split; (done || lia).
  - right. right. rewrite updateOnlineStatus_logout by lia.
    unfold presence. cbn. rewrite counter_addUpDownCounter.
    repeat split; (done || lia).
Qed.

(** X1.  A login of an untracked non-zero identity followed by its logout
    restores the tracked set and the presence counter; the store has
    received the insert and then the delete of the presence row. *)
Theorem login_logout_round_trip (guid : Z) (w : World DB) :
  0 < guid ->
  updateOnline w !! guid = None ->
  let w' := updateOnlineStatus guid false (updateOnlineStatus guid true w) in
  updateOnline w' = updateOnline w /\
  presence w' = presence w /\
  database w' =
    (executeQuery (DeletePlayersOnline guid (worldId w))
       (executeQuery (InsertPlayersOnline guid (worldId w)) (database w)).2).2.
Proof.
  intros Hpos Hnew w'. subst w'.
  rewrite updateOnlineStatus_logout by done.
  rewrite updateOnlineStatus_login by done.
  unfold presence. cbn [metrics updateOnline database worldId].
  rewrite !counter_addUpDownCounter.
  split; [by apply delete_insert_id|]. split; [lia|done].
Qed.

(** X2.  A call for one identity leaves the tracking of every other
    identity as it was, and never touches the log, the world id or the
    record of collaborator calls. *)
Theorem updateOnlineStatus_frame (guid other : Z) (login : bool) (w : World DB) :
  other <> guid ->
  let w' := updateOnlineStatus guid login w in
  updateOnline w' !! other = updateOnline w !! other /\
  logger w' = logger w /\ worldId w' = worldId w /\ invoked w' = invoked w.
Proof.
  intros Hother w'. subst w'. unfold updateOnlineStatus.
  destruct (_ || _); [done|].
  destruct login; cbn.
  - by rewrite lookup_insert_ne.
  - by rewrite lookup_delete_ne.
Qed.

Lemma tracked_ok_step (guid : Z) (login : bool) (w : World DB) :
  tracked_ok w -> tracked_ok (updateOnlineStatus guid login w).
Proof.
  intros Hok.
  destruct (updateOnlineStatus_cases guid login w)
    as [[-> _]|[(Hpos & _ & _ & Hmap & _)|(Hpos & _ & Hmap & _)]]; [done| |].
  - intros g b. rewrite Hmap. rewrite lookup_insert_Some.
    intros [[<- <-]|[_ Hg]]; [done|by apply Hok].
  - intros g b. rewrite Hmap. rewrite lookup_delete_Some.
    intros [_ Hg]. by apply Hok.
Qed.

(** X3.  Every tracked identity is positive and marked [true], and this
    is kept by any sequence of logins and logouts: the zero identity is
    never tracked and no entry is ever marked [false]. *)
Theorem replay_tracked_ok (events : Events) (w : World DB) :
  tracked_ok w -> tracked_ok (replay events w).
Proof.
  revert w. induction events as [|[guid login] events IH]; intros w Hok.
  - done.
  - apply IH. by apply tracked_ok_step.
Qed.

Lemma presence_excess_step (guid : Z) (login : bool) (w : World DB) :
  presence_excess (updateOnlineStatus guid login w) <= presence_excess w /\
  (login = true \/ is_Some (updateOnline w !! guid) ->
   presence_excess (updateOnlineStatus guid login w) = presence_excess w).
Proof.
  unfold presence_excess.
  destruct (updateOnlineStatus_cases guid login w)
    as [[-> _]|[(Hpos & _ & Hnew & Hmap & Hcount)|(Hpos & -> & Hmap & Hcount)]].
  - split; [lia|done].
  - rewrite Hmap, Hcount, map_size_insert_None by done. split; [lia|]. lia.
  - rewrite Hmap, Hcount.
    destruct (updateOnline w !! guid) as [b|] eqn:Hw.
    + rewrite map_size_delete_Some by (rewrite Hw; eauto).
      assert (size (updateOnline w) <> 0%nat).
      { intros Hsize. apply map_size_empty_inv in Hsize.
        rewrite Hsize in Hw. by rewrite lookup_empty in Hw. }
      split; [lia|]. intros _. lia.
    + rewrite map_size_delete_None by done.
      split; [lia|]. intros [|[? ?]]; done.
Qed.

(** X4.  Over any sequence of logins and logouts the presence counter
    never gains on the number of tracked identities, and over a sequence
    of logins alone it keeps exactly in step with it. *)
Theorem replay_presence_excess (events : Events) (w : World DB) :
  presence_excess (replay events w) <= presence_excess w /\
  (Forall (fun e => e.2 = true) events ->
   presence_excess (replay events w) = presence_excess w).
Proof.
  revert w. induction events as [|[guid login] events IH]; intros w.
  - done.
  - cbn. destruct (IH (updateOnlineStatus guid login w)) as [Hle Heq].
    destruct (presence_excess_step guid login w) as [Hstep Hsame].
    split; [unfold replay in Hle; lia|].
    intros Hall. inversion Hall as [|? ? Hlogin Hrest]; subst. cbn in Hlogin.
    unfold replay in Heq. rewrite Heq by done. apply Hsame. by left.
Qed.

End Tracker.

(** * Further properties of authentication, load and save *)

Section Further.

Context {DB : Type} `{!Database DB}.
Context {P : Type} `{!Collaborators P DB}.
Context {A : Type} `{!Account.Api A}.

(** ** Authentication *)

Lemma gameWorldAuthentication_unreached (accountDescriptor password : string)
    (characterName : string) (accountId : Z) (oldProtocol : bool)
    (w : World DB) :
  authenticatedAccount (A := A) accountDescriptor password oldProtocol w = None ->
  exists w',
    gameWorldAuthentication (A := A) accountDescriptor password characterName
      accountId oldProtocol w = (false, accountId, w') /\
    (w' = w \/ exists msg, w' = log (log_error msg) w).
Proof.
  unfold authenticatedAccount, gameWorldAuthentication.
  destruct (Account.load _) as [code1 a1].
  destruct (negb (Account.AccountErrors_Ok =? code1)); [by eauto|].
  destruct (if String.eqb (AUTH_TYPE w) "session" then _ else _) as [ok a2].
  destruct (negb ok); [by eauto|].
  destruct (Account.load a2) as [code2 a3].
  destruct (negb (Account.AccountErrors_Ok =? code2)); [by eauto|].
  discriminate.
Qed.

(** X5.  [gameWorldAuthentication] changes the caller's account id only
    when it returns [true], and then to the id of the authenticated
    account whose entry for the character has deletion marker 0.  The
    world changes by at most one error line, and by none on success. *)
Theorem gameWorldAuthentication_result (accountDescriptor password : string)
    (characterName : string) (accountId : Z) (oldProtocol : bool)
    (w : World DB) :
  let result :=
    gameWorldAuthentication (A := A) accountDescriptor password characterName
      accountId oldProtocol w in
  (result.1.1 = false -> result.1.2 = accountId) /\
  (result.1.1 = true ->
     result.2 = w /\
     exists account,
       authenticatedAccount accountDescriptor password oldProtocol w
         = Some account /\
       (Account.getAccountPlayers account).2 = Account.AccountErrors_Ok /\
       deletion (default Account.value_initialized
                   ((Account.getAccountPlayers account).1 !! characterName)) = 0 /\
       result.1.2 = Account.getID account) /\
  (result.2 = w \/ exists msg, result.2 = log (log_error msg) w).
Proof.
  intros result. subst result.
  destruct (authenticatedAccount (A := A) accountDescriptor password
              oldProtocol w) as [account|] eqn:Hreached.
  - rewrite (gameWorldAuthentication_reached _ _ characterName accountId
               _ _ _ Hreached).
    destruct (Account.getAccountPlayers account) as [players code] eqn:Hplayers.
    cbn.
    destruct (Account.AccountErrors_Ok =? code) eqn:Hcode; cbn.
    + destruct (deletion _ =? 0) eqn:Hdel; cbn.
      * split; [discriminate|]. split; [|by left].
        intros _. split; [done|]. exists account.
        apply Z.eqb_eq in Hcode, Hdel. rewrite Hplayers.
        split; [done|]. split; [by symmetry|]. split; [exact Hdel|done].
      * split; [done|]. split; [discriminate|]. right. by eexists.
    + split; [done|]. split; [discriminate|]. right. by eexists.
  - destruct (gameWorldAuthentication_unreached _ _ characterName accountId
                _ _ Hreached) as (w' & -> & Hlog).
    cbn. split; [done|]. split; [discriminate|done].
Qed.

(** X6.  A character name that is missing from the account's player set
    is not rejected as such: the lookup [players[characterName]] yields
    the value-initialized entry, and when its deletion marker is 0 the
    authentication succeeds with the account's id. *)
Theorem gameWorldAuthentication_unknown_character
    (accountDescriptor password : string) (characterName : string)
    (accountId : Z) (oldProtocol : bool) (w : World DB) (account : A) :
  authenticatedAccount accountDescriptor password oldProtocol w = Some account ->
  (Account.getAccountPlayers account).2 = Account.AccountErrors_Ok ->
  (Account.getAccountPlayers account).1 !! characterName = None ->
  deletion (Account.value_initialized (A := A)) = 0 ->
  gameWorldAuthentication accountDescriptor password characterName accountId
    oldProtocol w = (true, Account.getID account, w).
Proof.
  intros Hreached Hcode Hname Hdefault.
  rewrite (gameWorldAuthentication_reached _ _ _ _ _ _ _ Hreached).
  destruct (Account.getAccountPlayers account) as [players code].
  cbn in Hcode, Hname. subst code. rewrite Hname. cbn. rewrite Hdefault.
  by rewrite Z.eqb_refl.
Qed.

(** X7.  Under the [session] authentication type the password takes no
    part: two requests that differ only in the password have the same
    outcome. *)
Theorem gameWorldAuthentication_session_ignores_password
    (accountDescriptor password password' : string) (characterName : string)
    (accountId : Z) (oldProtocol : bool) (w : World DB) :
  AUTH_TYPE w = "session" ->
  gameWorldAuthentication (A := A) accountDescriptor password characterName
    accountId oldProtocol w =
  gameWorldAuthentication (A := A) accountDescriptor password' characterName
    accountId oldProtocol w.
Proof.
  intros Hsession. unfold gameWorldAuthentication. rewrite Hsession.
  reflexivity.
Qed.

(** ** Load *)


(** X9.  The load pipeline is not transactional: when a loader step
    throws, [loadPlayer] returns failure together with the aggregate as
    the steps before it left it, and the warning carries the text of the
    exception. *)
Theorem loadPlayer_partial (p p' : P) (r : DBResult) (disable : bool)
    (w : World DB) (e : Exception) (ran : list LoaderStep) :
  run_loaders (mode_order disable) r (database w) p = (Some e, ran, p') ->
  (loadPlayer (Some p) (Some r) disable w).1 = (false, Some p') /\
  logger (loadPlayer (Some p) (Some r) disable w).2 =
    logger w ++ [log_warn ("[loadPlayer] Error while load player: " +:+ what e)] /\
  invoked (loadPlayer (Some p) (Some r) disable w).2 =
    invoked w ++ map Loader ran.
Proof.
  intros Hseq. pose proof (loadPlayer_run p r disable w) as Hrun.
  rewrite Hseq in Hrun. by rewrite Hrun.
Qed.

(** ** Save *)


(** X11.  [savePlayerGuard] on its own undoes nothing: when it throws,
    the store holds the writes of every step up to and including the
    failing one.  The roll-back is the work of the transaction scope
    around it. *)
Theorem savePlayerGuard_keeps_writes (p : P) (w : World DB) (s : SaverStep)
    (ran : list SaverStep) (db : DB) :
  run_savers saver_order p (database w) = (Some s, ran, db) ->
  (exists e, (savePlayerGuard (Some p) w).1 = inl e) /\
  database (savePlayerGuard (Some p) w).2 = db /\
  invoked (savePlayerGuard (Some p) w).2 = invoked w ++ map Saver ran.
Proof.
  intros Hseq. pose proof (savePlayerGuard_run p w) as Hguard.
  rewrite Hseq in Hguard. destruct Hguard as (outcome & -> & e & ->).
  split; [by exists e|done].
Qed.



End Further.

(** * Further properties of the lookups *)

Section LookupProperties.

Context {DB : Type} `{!Database DB} `{!ResultSets DB}.
Context {G : Type} `{!Groups G}.



Lemma do_while_next_map {E : Type} (make : DBResult -> E) (rest : list DBResult) :
  forall row entries,
    do_while_next make row rest entries = entries ++ map make (row :: rest).
Proof.
  induction rest as [|row' rest IH]; intros row entries; simpl.
  - done.
  - rewrite IH. by rewrite <- app_assoc.
Qed.



(** X15.  [getGuidByNameEx] leaves its three in-out parameters untouched
    when the name has no row.  When a row is found it returns [true] with
    the stored spelling of the name and the stored id, whatever the
    parameters held, and the special-VIP flag is [false] for a player
    whose group is unknown. *)
Theorem getGuidByNameEx_out (guid : Z) (specialVip : bool) (name : string)
    (w : World DB) :
  (storeResultSet (SelectPlayerEx name (worldId w)) (database w) = None ->
   getGuidByNameEx (G := G) guid specialVip name w
     = (false, guid, specialVip, name)) /\
  (forall result,
     storeResultSet (SelectPlayerEx name (worldId w)) (database w) = Some result ->
     (exists flag,
        getGuidByNameEx (G := G) guid specialVip name w
          = (true, uint32 (getNumber (current result) "id"), flag,
             getString (current result) "name")) /\
     (getGroup (G := G) (uint16 (getNumber (current result) "group_id")) = None ->
      (getGuidByNameEx (G := G) guid specialVip name w).1.2 = false)).
Proof.
  unfold getGuidByNameEx. split.
  - by intros ->.
  - intros result ->. split; [by eexists|].
    unfold getNumber_uint16. by intros ->.
Qed.

(** X16.  [getVIPEntries] and [getVIPGroupEntries] return one entry per
    row of the result set, in row order, and the empty list when the
    store answers with a null result; a notify or customizable column is
    read as [true] exactly when it is non-zero. *)
Theorem getVIPEntries_rows (accountId guid : Z) (w : World DB) :
  (storeResultSet (SelectVipList accountId (worldId w)) (database w) = None ->
   getVIPEntries accountId w = []) /\
  (forall result,
     storeResultSet (SelectVipList accountId (worldId w)) (database w)
       = Some result ->
     getVIPEntries accountId w = map VIPEntry_of (rows result) /\
     length (getVIPEntries accountId w) = countResults result) /\
  (storeResultSet (SelectVipGroups accountId) (database w) = None ->
   getVIPGroupEntries accountId guid w = []) /\
  (forall result,
     storeResultSet (SelectVipGroups accountId) (database w) = Some result ->
     getVIPGroupEntries accountId guid w = map VIPGroupEntry_of (rows result) /\
     length (getVIPGroupEntries accountId guid w) = countResults result).
Proof.
  unfold getVIPEntries, getVIPGroupEntries, countResults.
  split; [by intros ->|]. split; [|split; [by intros ->|]].
  - intros result ->. rewrite do_while_next_map.
    split; [done|]. simpl. by rewrite length_map.
  - intros result ->. rewrite do_while_next_map.
    split; [done|]. simpl. by rewrite length_map.
Qed.

End LookupProperties.

(** * The further properties on the concrete store *)

Import Tables.

Lemma login_logout_round_trip_witness :
  updateOnline (updateOnlineStatus 7 false (updateOnlineStatus 7 true world0))
    = updateOnline world0 /\
  presence (updateOnlineStatus 7 false (updateOnlineStatus 7 true world0))
    = presence world0 /\
  players_online
    (database (updateOnlineStatus 7 false (updateOnlineStatus 7 true world0)))
    = [].
Proof.
  destruct (login_logout_round_trip 7 world0 ltac:(lia) eq_refl)
    as (Hset & Hcount & Hstore).
  split; [exact Hset|]. split; [exact Hcount|].
  rewrite Hstore. reflexivity.
Defined.

Lemma updateOnlineStatus_frame_witness :
  updateOnline (updateOnlineStatus 7 false (updateOnlineStatus 8 true world0)) !! 8
    = Some true.
Proof.
  destruct (updateOnlineStatus_frame 7 8 false (updateOnlineStatus 8 true world0)
              ltac:(lia)) as [Hother _].
  rewrite Hother. reflexivity.
Defined.

Lemma replay_tracked_ok_witness :
  tracked_ok (replay [(7, true); (0, true); (7, true); (9, false); (8, true)] world0).
Proof.
  apply (replay_tracked_ok _ world0).
  intros guid b Hguid. vm_compute in Hguid. discriminate Hguid.
Defined.

Lemma replay_presence_excess_witness :
  presence_excess (replay [(7, true); (7, true); (8, true)] world0)
    = presence_excess world0.
Proof.
  apply (proj2 (replay_presence_excess [(7, true); (7, true); (8, true)] world0)).
  repeat constructor.
Defined.

Lemma gameWorldAuthentication_result_witness :
  (gameWorldAuthentication (A := Acct) "account" "wrong" "Alice" 5 false world0).1.2
    = 5 /\
  (gameWorldAuthentication (A := Acct) "account" "secret" "Alice" 5 false world0).1.2
    = 42.
Proof.
  split.
  - apply (proj1 (gameWorldAuthentication_result (A := Acct)
                    "account" "wrong" "Alice" 5 false world0)).
    reflexivity.
  - assert (Hok : (gameWorldAuthentication (A := Acct) "account" "secret"
                     "Alice" 5 false world0).1.1 = true)
      by (vm_compute; reflexivity).
    destruct (proj1 (proj2 (gameWorldAuthentication_result (A := Acct)
                    "account" "secret" "Alice" 5 false world0)) Hok)
      as (_ & account & Hreached & _ & _ & Hid).
    rewrite Hid. injection Hreached as <-. reflexivity.
Defined.

Lemma gameWorldAuthentication_unknown_character_witness :
  gameWorldAuthentication (A := Acct) "account" "secret" "Zed" 5 false world0
    = (true, 42, world0).
Proof.
  assert (Hreached : authenticatedAccount (A := Acct) "account" "secret" false
                       world0 = Some (Account.make "account")) by reflexivity.
  assert (Hname : (Account.getAccountPlayers (A := Acct)
                     (Account.make "account")).1 !! "Zed" = None)
    by (vm_compute; reflexivity).
  exact (gameWorldAuthentication_unknown_character (A := Acct)
           "account" "secret" "Zed" 5 false world0 (Account.make "account")
           Hreached eq_refl Hname eq_refl).
Defined.

Lemma gameWorldAuthentication_session_ignores_password_witness :
  gameWorldAuthentication (A := Acct) "account" "secret" "Alice" 5 false
      (mkWorld store0 1 "session" ∅ ∅ [] [])
  = gameWorldAuthentication (A := Acct) "account" "wrong" "Alice" 5 false
      (mkWorld store0 1 "session" ∅ ∅ [] []).
Proof.
  apply (gameWorldAuthentication_session_ignores_password (A := Acct)).
  reflexivity.
Defined.


Lemma loadPlayer_partial_witness :
  (loadPlayer (Some (mkPlayer "Al" None (Some loadPlayerBlessings) []))
     (Some alice_row) true world0).1
  = (false,
     Some (mkPlayer "Al" None (Some loadPlayerBlessings)
             [loadPlayerFirst; loadPlayerExperience])).
Proof.
  assert (Hseq :
    run_loaders (mode_order true) alice_row (database world0)
      (mkPlayer "Al" None (Some loadPlayerBlessings) [])
    = (Some (std_exception "malformed row"),
       [loadPlayerFirst; loadPlayerExperience; loadPlayerBlessings],
       mkPlayer "Al" None (Some loadPlayerBlessings)
         [loadPlayerFirst; loadPlayerExperience]))
    by (vm_compute; reflexivity).
  exact (proj1 (loadPlayer_partial _ _ _ _ _ _ _ Hseq)).
Defined.


Lemma savePlayerGuard_keeps_writes_witness :
  length (written (database
    (savePlayerGuard (Some (mkPlayer "Bob" (Some savePlayerInbox) None []))
       world0).2)) = 9%nat.
Proof.
  assert (Hseq :
    run_savers saver_order (mkPlayer "Bob" (Some savePlayerInbox) None [])
      (database world0)
    = (Some savePlayerInbox,
       (run_savers saver_order
          (mkPlayer "Bob" (Some savePlayerInbox) None [])
          (database world0)).1.2,
       (run_savers saver_order
          (mkPlayer "Bob" (Some savePlayerInbox) None [])
          (database world0)).2))
    by (vm_compute; reflexivity).
  destruct (savePlayerGuard_keeps_writes _ world0 _ _ _ Hseq)
    as (_ & Hstore & _).
  rewrite Hstore. reflexivity.
Defined.




Lemma getGuidByNameEx_out_witness :
  getGuidByNameEx (G := bool) 3 true "Zed" world0 = (false, 3, true, "Zed") /\
  (getGuidByNameEx (G := bool) 3 true "Nobody" world0).1.2 = false.
Proof.
  split.
  - apply (proj1 (getGuidByNameEx_out (G := bool) 3 true "Zed" world0)).
    reflexivity.
  - assert (Hrow : storeResultSet (SelectPlayerEx "Nobody" (worldId world0))
                     (database world0)
                   = Some (mkResultSet (player_row (0, "Nobody", 1) 5) []))
      by reflexivity.
    apply (proj2 (proj2 (getGuidByNameEx_out (G := bool) 3 true "Nobody" world0)
             _ Hrow)).
    reflexivity.
Defined.

Lemma getVIPEntries_rows_witness :
  getVIPEntries 1 world0
    = [mkVIPEntry 7 "Alice" "friend" 3 true; mkVIPEntry 8 "Carol" "" 0 false] /\
  getVIPEntries 2 world0 = [].
Proof.
  split.
  - assert (Hrows : storeResultSet (SelectVipList 1 (worldId world0))
                      (database world0)
                    = Some (mkResultSet (vip_row 7 "Alice" "friend" 3 1)
                                        [vip_row 8 "Carol" "" 0 0]))
      by reflexivity.
    exact (proj1 (proj1 (proj2 (getVIPEntries_rows 1 0 world0)) _ Hrows)).
  - apply (proj1 (getVIPEntries_rows 2 0 world0)). reflexivity.
Defined.
